(** * sleepy: the request dispatcher of [core.go]

    A shallow embedding of package [sleepy] (one file, [core.go]): the four
    capability interfaces, [requestHandler], [AddResource] and [Start],
    followed by the properties of the dispatcher.

    What the package calls but does not define is kept abstract or written
    out as Go documents it:
    - [request.ParseForm()] is a field of the request: the form it leaves in
      [request.Form] and the error it returns;
    - [json.Marshal] and [http.ListenAndServe] are variables of the section;
    - [http.ResponseWriter] is the record of the calls made on it, which
      [sent] plays on the writer of the [net/http] server;
    - [http.ServeMux] is its table of registered patterns, with the two
      panics of [ServeMux.Handle] that a caller of [AddResource] can reach. *)

From Stdlib Require Import ZArith List.
From stdpp Require Import gmap strings list pretty.
Import ListNotations.

Set Warnings "-register-all,-clear-no-such-hyp".
Set Default Proof Using "Type".

Local Open Scope Z_scope.
Local Open Scope string_scope.
Local Open Scope list_scope.

(** ** Constants *)

Definition GET : string := "GET".
Definition POST : string := "POST".
Definition PUT : string := "PUT".
Definition DELETE : string := "DELETE".

(** The three [net/http] status constants the dispatcher writes itself. *)
Definition StatusBadRequest : Z := 400.
Definition StatusMethodNotAllowed : Z := 405.
Definition StatusInternalServerError : Z := 500.

(** A non-nil Go [error], by its message. *)
Definition error : Type := string.

(** [url.Values]: field name to the ordered sequence of its values. *)
Abbreviation Values := (gmap string (list string)).

(** [http.Request], as far as [requestHandler] looks at it: the [Method]
    string, and what [request.ParseForm()] does: the form it stores in
    [request.Form] and the error it returns ([None] for [nil]). *)
Record Request : Type := mkRequest {
  Method : string;
  ParseForm : Values * option error
}.

Definition Form (request : Request) : Values := fst (ParseForm request).

(** The calls a handler makes on its [http.ResponseWriter], oldest first. *)
Inductive RWCall : Type :=
| CallWriteHeader (code : Z)
| CallWrite (content : list Byte.byte).

(** The four capabilities, one per interface of [core.go]. *)
Inductive Capability : Type := CapGet | CapPost | CapPut | CapDelete.

Section Dispatcher.

(** [St] is whatever the resources' methods read and change; [Data] is the
    [interface{}] a method returns next to its status. *)
Context {St Data : Type}.

(** [json.Marshal]: the content and the error ([None] for [nil]). *)
Variable Marshal : Data -> list Byte.byte * option error.

(** A method [func(url.Values) (int, interface{})]; being Go code it may
    read and change state. *)
Definition MethodFunc : Type := Values -> St -> (Z * Data) * St.

(** A resource is an [interface{}]; all the dispatcher asks of it is which
    of the four interfaces its dynamic type satisfies, and the method it
    then gets. [None]: the type assertion [resource.(XSupported)] fails. *)
Record Resource : Type := mkResource {
  Get : option MethodFunc;
  Post : option MethodFunc;
  Put : option MethodFunc;
  Delete : option MethodFunc
}.

(** What one request can touch: the state behind the resources, the
    response writer, and a ghost log of the capability methods called with
    their argument. *)
Record World : Type := mkWorld {
  state : St;
  invoked : list (Capability * Values);
  rw : list RWCall
}.

(** Go statements as state transformers on [World]. *)
Definition M (A : Type) : Type := World -> A * World.

Definition ret {A} (a : A) : M A := fun w => (a, w).

Definition bind {A B} (m : M A) (k : A -> M B) : M B :=
  fun w => let (a, w') := m w in k a w'.

Notation "x <- m ;; k" := (bind m (fun x => k))
  (at level 100, m at next level, right associativity).
Notation "m ;; k" := (bind m (fun _ => k))
  (at level 100, right associativity).

(** [rw.WriteHeader(code)] *)
Definition WriteHeader (code : Z) : M unit :=
  fun w => (tt, mkWorld (state w) (invoked w) (rw w ++ [CallWriteHeader code])).

(** [rw.Write(content)] *)
Definition Write (content : list Byte.byte) : M unit :=
  fun w => (tt, mkWorld (state w) (invoked w) (rw w ++ [CallWrite content])).

(** The call [handler(request.Form)] of a method obtained for capability
    [c]: runs the method on the state and logs the call. *)
Definition call (c : Capability) (handler : MethodFunc) (form : Values)
  : M (Z * Data) :=
  fun w =>
    let (result, s') := handler form (state w) in
    (result, mkWorld s' (invoked w ++ [(c, form)]) (rw w)).

(** The [switch request.Method] of [requestHandler]: the value of the
    variable [handler] after it ([None] for [nil]), tagged with the
    capability it was taken from. *)
Definition select (resource : Resource) (method : string)
  : option (Capability * MethodFunc) :=
  if decide (method = GET) then pair CapGet <$> Get resource
  else if decide (method = POST) then pair CapPost <$> Post resource
  else if decide (method = PUT) then pair CapPut <$> Put resource
  else if decide (method = DELETE) then pair CapDelete <$> Delete resource
  else None.

(** [http.HandlerFunc], a [func(http.ResponseWriter, *http.Request)]: the
    writer is the [rw] of the world it runs in. *)
Definition HandlerFunc : Type := Request -> M unit.

(** [func (api *API) requestHandler(resource interface{}) http.HandlerFunc];
    the receiver is not used by the body. *)
Definition requestHandler (resource : Resource) : HandlerFunc :=
  fun request =>
    match snd (ParseForm request) with
    | Some _ => WriteHeader StatusBadRequest
    | None =>
        match select resource (Method request) with
        | None => WriteHeader StatusMethodNotAllowed
        | Some (c, handler) =>
            r <- call c handler (Form request) ;;
            let (code, data) := r in
            let (content, err) := Marshal data in
            (match err with
             | Some _ => WriteHeader StatusInternalServerError
             | None => ret tt
             end) ;;
            WriteHeader code ;;
            Write content
        end
    end.

(** ** The routing table and the API *)

(** [http.ServeMux]: its table [mux.m], from each registered pattern to the
    handler registered for it. *)
Definition ServeMux : Type := gmap string HandlerFunc.

(** [http.NewServeMux()] *)
Definition NewServeMux : ServeMux := ∅.

(** A Go call completes or panics; the assignments made before a panic
    stay, so both carry the state the call leaves. *)
Inductive Outcome (A : Type) : Type :=
| Completed (a : A)
| Panicked (msg : string) (a : A).
Global Arguments Completed {A} a.
Global Arguments Panicked {A} msg a.

Definition after {A} (o : Outcome A) : A :=
  match o with Completed a => a | Panicked _ a => a end.

(** [mux.HandleFunc(pattern, handler)], that is [mux.Handle], as it is up
    to Go 1.21: it panics on the empty pattern and on a pattern that is
    registered already, and stores the handler otherwise. (Its third panic,
    on a nil handler, needs a nil [handler]; a [HandlerFunc] here is always
    a function.) From Go 1.22 on [Handle] parses the pattern and refuses
    more of them (a malformed one, one that conflicts with a registered
    one) and words its panics differently; both panic on the empty and on
    the registered pattern and store the handler under the pattern when
    they complete. What is stated below about a completed call, or about a
    panic on these two grounds, holds for both; that a call completes is
    stated of this [Handle] only. *)
Definition HandleFunc (pattern : string) (handler : HandlerFunc)
    (mux : ServeMux) : Outcome ServeMux :=
  if decide (pattern = "") then Panicked "http: invalid pattern" mux
  else if decide (is_Some (mux !! pattern))
  then Panicked ("http: multiple registrations for " +:+ pattern) mux
  else Completed (<[pattern := handler]> mux).

(** [type API struct { mux *http.ServeMux }]; [None] is the nil pointer. *)
Record API : Type := mkAPI { mux : option ServeMux }.

(** [func NewAPI() *API] *)
Definition NewAPI : API := mkAPI None.

(** [func (api *API) AddResource(resource interface{}, path string)] *)
Definition AddResource (resource : Resource) (path : string) (api : API)
  : Outcome API :=
  let m := match mux api with
           | None => NewServeMux
           | Some m => m
           end in
  match HandleFunc path (requestHandler resource) m with
  | Completed m' => Completed (mkAPI (Some m'))
  | Panicked msg m' => Panicked msg (mkAPI (Some m'))
  end.

(** What a call that serves until its transport fails comes to:
    [http.ListenAndServe] never returns a nil error. *)
Inductive Serving : Type :=
| ServesForever
| Fails (err : error).

(** [http.ListenAndServe(addr, handler)] *)
Variable ListenAndServe : string -> ServeMux -> Serving.

(** [func (api *API) Start(port int) error], with the calls it makes to
    the transport: each one is an address listened on. *)
Definition Start (api : API) (port : Z)
  : Serving * list (string * ServeMux) :=
  match mux api with
  | None => (Fails "You must add at least one resource to this API.", [])
  | Some m =>
      let portString := ":" +:+ pretty port in
      (ListenAndServe portString m, [(portString, m)])
  end.

(** A run of [AddResource] calls on one API, in order; a Go program that
    does not recover ends at the first panic. *)
Fixpoint register (calls : list (Resource * string)) (api : API)
  : option API :=
  match calls with
  | [] => Some api
  | (resource, path) :: rest =>
      match AddResource resource path api with
      | Completed api' => register rest api'
      | Panicked _ _ => None
      end
  end.

(** The operations of the package on an API. A panic of [AddResource] may
    be recovered by the caller, who then goes on with the API as the call
    left it. [Start] and a request served leave the API as it is. *)
Inductive Op : Type :=
| OpAddResource (resource : Resource) (path : string)
| OpStart (port : Z)
| OpServe (path : string) (request : Request).

Definition apply_op (api : API) (op : Op) : API :=
  match op with
  | OpAddResource resource path => after (AddResource resource path api)
  | OpStart _ => api
  | OpServe _ _ => api
  end.

(** The routes of an API: the registered patterns. *)
Definition routes (api : API) : ServeMux :=
  match mux api with
  | None => ∅
  | Some m => m
  end.

End Dispatcher.

Arguments MethodFunc : clear implicits.
Arguments Resource : clear implicits.
Arguments World : clear implicits.
Arguments M : clear implicits.
Arguments HandlerFunc : clear implicits.
Arguments ServeMux : clear implicits.
Arguments API : clear implicits.
Arguments Op : clear implicits.

(** ** The vocabulary of the properties *)

(** The capability a verb stands for: the four [case] labels of the switch. *)
Definition verb (method : string) : option Capability :=
  if decide (method = GET) then Some CapGet
  else if decide (method = POST) then Some CapPost
  else if decide (method = PUT) then Some CapPut
  else if decide (method = DELETE) then Some CapDelete
  else None.

(** The method a resource has for a capability, if it implements it. *)
Definition method_of {St Data} (resource : Resource St Data) (c : Capability)
  : option (MethodFunc St Data) :=
  match c with
  | CapGet => Get resource
  | CapPost => Post resource
  | CapPut => Put resource
  | CapDelete => Delete resource
  end.

(** A method is pure when its result is a function of its argument alone
    and it leaves the state as it found it. *)
Definition pure_method {St Data} (handler : MethodFunc St Data) : Prop :=
  ∃ f : Values → Z * Data, ∀ form s, handler form s = (f form, s).

(** Whether an operation is a call of [AddResource]. *)
Definition is_AddResource {St Data} (op : Op St Data) : bool :=
  match op with
  | OpAddResource _ _ => true
  | _ => false
  end.

(** The status and the body the calls ask for: the code of the first
    [WriteHeader] (200 when a [Write] comes first, or nothing), and what was
    passed to [Write], in order. This reads the calls, not the wire: the
    server's writer, [sent] below, panics on a code outside 100..999 and
    drops the body of a 204 or 304; for a first code from 200 to 999 other
    than these two the two readings agree ([sent_agrees]). *)
Definition status (calls : list RWCall) : Z :=
  match calls with
  | CallWriteHeader code :: _ => code
  | _ => 200
  end.

Fixpoint body (calls : list RWCall) : list Byte.byte :=
  match calls with
  | [] => []
  | CallWriteHeader _ :: rest => body rest
  | CallWrite content :: rest => content ++ body rest
  end.

(** ** The writer of the server

    The [http.ResponseWriter] the server of [net/http] passes to a handler
    is its [response]; what follows is its [WriteHeader], [Write] and the
    end of the request, as far as calls with a code and a content decide
    them (no hijacking, no [Content-Length] header, no HEAD request: the
    handler above sets none and answers HEAD with a bare 405). *)









(** ** A sample server

    Values of a few Go types with their JSON encoding, a state that counts,
    and resources over them; the closed examples below run on these. *)

Inductive Value : Type :=
| VNil
| VBool (b : bool)
| VInt (n : Z)
| VSlice (items : list Value)
| VChan.

(** The JSON text of a value; a channel has none. *)
Fixpoint encode (v : Value) : option string :=
  match v with
  | VNil => Some "null"
  | VBool b => Some (if b then "true" else "false")
  | VInt n => Some (pretty n)
  | VSlice items =>
      texts ← mapM encode items;
      Some ("[" +:+ String.concat "," texts +:+ "]")
  | VChan => None
  end.

(** [json.Marshal] on these values: the bytes and a nil error, or nil bytes
    and an [UnsupportedTypeError]. *)
Definition sampleMarshal (v : Value) : list Byte.byte * option error :=
  match encode v with
  | Some text => (Stdlib.Strings.String.list_byte_of_string text, None)
  | None => ([], Some "json: unsupported type: chan int")
  end.

(** A transport whose port is taken. *)
Definition sampleListenAndServe (addr : string) (_ : ServeMux nat) : Serving :=
  Fails ("listen tcp " +:+ addr +:+ ": bind: address already in use").

(** A resource with [Get] and [Post]: [Get] reports the counter, [Post]
    adds one to it and reports the new value with 201. *)
Definition counter : Resource nat Value :=
  mkResource
    (Some (fun _ n => ((200, VSlice [VInt (Z.of_nat n); VBool true]), n)))
    (Some (fun _ n => ((201, VInt (Z.of_nat (S n))), S n)))
    None
    None.

(** A resource whose [Get] returns a channel, which does not serialize. *)
Definition broken : Resource nat Value :=
  mkResource (Some (fun _ n => ((200, VSlice [VInt 1; VChan]), n))) None None None.

(** A resource with a pure [Get], the same answer whatever the state. *)
Definition fixed : Resource nat Value :=
  mkResource (Some (fun _ n => ((200, VSlice [VInt 1; VInt 2; VNil]), n)))
    None None None.


(** A resource that implements none of the four interfaces. *)
Definition inert : Resource nat Value := mkResource None None None None.

Definition sampleForm : Values := {[ "name" := ["a"; "b"] ]}.

Definition getRequest : Request := mkRequest "GET" (sampleForm, None).
Definition postRequest : Request := mkRequest "POST" (sampleForm, None).
Definition patchRequest : Request := mkRequest "PATCH" (sampleForm, None).
(** A request with a bad percent escape in its query. *)
Definition badRequest : Request :=
  mkRequest "PATCH" (∅, Some "invalid URL escape %zz").

Definition world0 : World nat := mkWorld 7%nat [] [].
Definition world1 : World nat := mkWorld 9%nat [(CapPost, ∅)] [].

(** The API with [counter] registered at [/items]. *)
Definition itemsAPI : API nat :=
  mkAPI (Some {[ "/items" := requestHandler sampleMarshal counter ]}).

(** * Properties of the dispatcher *)

Section RequestHandler.

Context {St Data : Type}.
Variable Marshal : Data → list Byte.byte * option error.

Implicit Types (resource : Resource St Data) (request : Request).
Implicit Types (w : World St) (c : Capability) (handler : MethodFunc St Data).

(** The switch picks the method of the capability the verb stands for. *)
Lemma select_verb resource method :
  select resource method =
  match verb method with
  | Some c => pair c <$> method_of resource c
  | None => None
  end.
Proof.
  unfold select, verb.
  repeat case_decide; reflexivity.
Qed.

Lemma select_Some resource method c handler :
  select resource method = Some (c, handler) ↔
  verb method = Some c ∧ method_of resource c = Some handler.
Proof.
  rewrite select_verb.
  destruct (verb method) as [c'|]; [|naive_solver].
  destruct (method_of resource c') as [h|] eqn:E; simpl; split.
  - intros [= <- <-]. auto.
  - intros [[= ->] ?]. congruence.
  - discriminate.
  - intros [[= ->] ?]. congruence.
Qed.

Lemma select_None resource method :
  select resource method = None ↔
  verb method = None ∨ ∃ c, verb method = Some c ∧ method_of resource c = None.
Proof.
  rewrite select_verb.
  destruct (verb method) as [c|]; [|naive_solver].
  destruct (method_of resource c) eqn:E; simpl; naive_solver.
Qed.

(** The verbs with a capability are the four constants, spelled exactly. *)
Lemma verb_Some method c :
  verb method = Some c ↔
  match c with
  | CapGet => method = GET
  | CapPost => method = POST
  | CapPut => method = PUT
  | CapDelete => method = DELETE
  end.
Proof.
  unfold verb.
  repeat case_decide; subst; destruct c; split; (congruence || discriminate || done).
Qed.

Lemma verb_None method :
  verb method = None ↔ method ∉ [GET; POST; PUT; DELETE].
Proof.
  unfold verb. rewrite !not_elem_of_cons.
  repeat case_decide; split; try done; try naive_solver.
  intros _. repeat split; try done. apply not_elem_of_nil.
Qed.

(** On a failed parse the handler writes 400 and returns. *)
Lemma requestHandler_parse_error resource request w err :
  snd (ParseForm request) = Some err →
  requestHandler Marshal resource request w =
  (tt, mkWorld (state w) (invoked w) (rw w ++ [CallWriteHeader StatusBadRequest])).
Proof.
  intros E. unfold requestHandler. rewrite E. reflexivity.
Qed.

(** With no method selected the handler writes 405 and returns. *)
Lemma requestHandler_no_method resource request w :
  snd (ParseForm request) = None →
  select resource (Method request) = None →
  requestHandler Marshal resource request w =
  (tt, mkWorld (state w) (invoked w)
         (rw w ++ [CallWriteHeader StatusMethodNotAllowed])).
Proof.
  intros E1 E2. unfold requestHandler. rewrite E1, E2. reflexivity.
Qed.

(** With a method selected the handler calls it once on the parsed form,
    then writes: 500 first if the result does not serialize, then the
    method's status, then the content [json.Marshal] gave. *)
Lemma requestHandler_method resource request w c handler code data s' :
  snd (ParseForm request) = None →
  select resource (Method request) = Some (c, handler) →
  handler (Form request) (state w) = ((code, data), s') →
  requestHandler Marshal resource request w =
  (tt, mkWorld s' (invoked w ++ [(c, Form request)])
         (rw w ++
          (match snd (Marshal data) with
           | Some _ => [CallWriteHeader StatusInternalServerError]
           | None => []
           end)
          ++ [CallWriteHeader code; CallWrite (fst (Marshal data))])).
Proof.
  intros E1 E2 E3. unfold requestHandler. rewrite E1, E2.
  unfold bind, call. rewrite E3.
  destruct (Marshal data) as [content [err|]]; unfold WriteHeader, Write, ret;
    simpl; rewrite <- ?app_assoc; reflexivity.
Qed.

Lemma body_app calls1 calls2 : body (calls1 ++ calls2) = body calls1 ++ body calls2.
Proof.
  induction calls1 as [|[code|content] calls1 IH]; simpl; [done|done|].
  rewrite IH. apply app_assoc.
Qed.






(** ** The claims about one request *)


(** C2: when parsing the form fails, the response is 400 with an empty
    body, and no method of the resource is invoked. *)
Theorem parse_failure_bad_request resource request w err :
  snd (ParseForm request) = Some err →
  let w' := snd (requestHandler Marshal resource request w) in
  rw w' = rw w ++ [CallWriteHeader 400] ∧
  invoked w' = invoked w ∧
  state w' = state w ∧
  body (rw w') = body (rw w) ∧
  (rw w = [] → status (rw w') = 400 ∧ body (rw w') = []).
Proof.
  intros Hparse w'. subst w'.
  rewrite (requestHandler_parse_error _ _ _ _ Hparse). simpl.
  rewrite body_app, app_nil_r.
  split_and!; try done; intros ->; done.
Qed.

(** C3, as amended: for a request whose form parses and whose method is
    outside GET, POST, PUT, DELETE, or is one of them while the resource
    does not implement the matching interface, the response is 405 with an
    empty body, and no method is invoked. *)
Theorem unsupported_method_not_allowed resource request w :
  snd (ParseForm request) = None →
  Method request ∉ [GET; POST; PUT; DELETE] ∨
  (∃ c, verb (Method request) = Some c ∧ method_of resource c = None) →
  let w' := snd (requestHandler Marshal resource request w) in
  rw w' = rw w ++ [CallWriteHeader 405] ∧
  invoked w' = invoked w ∧
  state w' = state w ∧
  body (rw w') = body (rw w) ∧
  (rw w = [] → status (rw w') = 405 ∧ body (rw w') = []).
Proof.
  intros Hparse Hno w'. subst w'.
  assert (Hsel : select resource (Method request) = None).
  { apply select_None. destruct Hno as [Hout|Hmiss]; [left|right; exact Hmiss].
    apply verb_None, Hout. }
  rewrite (requestHandler_no_method _ _ _ Hparse Hsel). simpl.
  rewrite body_app, app_nil_r.
  split_and!; try done; intros ->; done.
Qed.

(** C4: when the invoked method returns a status and data that
    [json.Marshal] rejects, the handler writes 500, then the status the
    method returned, then the content [json.Marshal] returned with its
    error, in this order. *)
Theorem serialization_failure_writes
    resource request w c handler code data s' content err :
  snd (ParseForm request) = None →
  verb (Method request) = Some c →
  method_of resource c = Some handler →
  handler (Form request) (state w) = ((code, data), s') →
  Marshal data = (content, Some err) →
  let w' := snd (requestHandler Marshal resource request w) in
  rw w' = rw w ++ [CallWriteHeader 500; CallWriteHeader code; CallWrite content] ∧
  invoked w' = invoked w ++ [(c, Form request)] ∧
  state w' = s'.
Proof.
  intros Hparse Hverb Hmeth Hcall Hjson w'.
  assert (Hsel : select resource (Method request) = Some (c, handler))
    by (apply select_Some; auto).
  subst w'.
  rewrite (requestHandler_method _ _ _ _ _ _ _ _ Hparse Hsel Hcall), Hjson.
  simpl. done.
Qed.

(** C8: two requests with the same method and the same outcome of parsing,
    handled for the same resource, get the same calls on their writers,
    hence the same status and body, whatever the state each one runs in,
    provided the method selected for them is pure. *)
Theorem requestHandler_deterministic resource request1 request2 w1 w2 :
  Method request1 = Method request2 →
  ParseForm request1 = ParseForm request2 →
  (∀ c handler,
     select resource (Method request1) = Some (c, handler) → pure_method handler) →
  rw w1 = rw w2 →
  let w1' := snd (requestHandler Marshal resource request1 w1) in
  let w2' := snd (requestHandler Marshal resource request2 w2) in
  rw w1' = rw w2' ∧
  status (rw w1') = status (rw w2') ∧
  body (rw w1') = body (rw w2') ∧
  state w1' = state w1 ∧ state w2' = state w2.
Proof.
  intros Hm Hp Hpure Hrw w1' w2'.
  assert (Hcalls : rw w1' = rw w2' ∧ state w1' = state w1 ∧ state w2' = state w2).
  { subst w1' w2'.
    destruct (snd (ParseForm request1)) as [err|] eqn:Hparse.
    - rewrite (requestHandler_parse_error _ _ _ _ Hparse).
      rewrite Hp in Hparse.
      rewrite (requestHandler_parse_error _ _ _ _ Hparse).
      simpl. rewrite Hrw. done.
    - destruct (select resource (Method request1)) as [[c handler]|] eqn:Hsel.
      + destruct (Hpure c handler eq_refl) as [f Hf].
        rewrite (requestHandler_method resource request1 w1 c handler
                   (fst (f (Form request1))) (snd (f (Form request1))) (state w1)
                   Hparse Hsel)
          by (rewrite Hf; destruct (f (Form request1)); reflexivity).
        rewrite Hp in Hparse. rewrite Hm in Hsel.
        rewrite (requestHandler_method resource request2 w2 c handler
                   (fst (f (Form request2))) (snd (f (Form request2))) (state w2)
                   Hparse Hsel)
          by (rewrite Hf; destruct (f (Form request2)); reflexivity).
        simpl. unfold Form. rewrite Hp, Hrw. done.
      + rewrite (requestHandler_no_method _ _ _ Hparse Hsel).
        rewrite Hp in Hparse. rewrite Hm in Hsel.
        rewrite (requestHandler_no_method _ _ _ Hparse Hsel).
        simpl. rewrite Hrw. done. }
  destruct Hcalls as (-> & ? & ?). done.
Qed.

(** C9: the parse check comes before the switch on the method: a request
    whose form fails to parse gets 400, not 405, also when its method is
    unsupported or the resource does not implement it; what is written
    depends neither on the resource nor on the method. *)
Theorem parse_failure_precedes_dispatch
    resource resource' request request' w err err' :
  snd (ParseForm request) = Some err →
  snd (ParseForm request') = Some err' →
  let w' := snd (requestHandler Marshal resource request w) in
  rw w' = rw w ++ [CallWriteHeader 400] ∧
  (CallWriteHeader 405 ∉ drop (length (rw w)) (rw w')) ∧
  (rw w = [] → status (rw w') = 400) ∧
  requestHandler Marshal resource' request' w =
  requestHandler Marshal resource request w.
Proof.
  intros Hparse Hparse' w'. subst w'.
  rewrite (requestHandler_parse_error _ _ _ _ Hparse).
  rewrite (requestHandler_parse_error _ _ _ _ Hparse').
  simpl. rewrite drop_app_length.
  split_and!; try done.
  - rewrite not_elem_of_cons. split; [discriminate|apply not_elem_of_nil].
  - intros ->. reflexivity.
Qed.

End RequestHandler.

(** * Properties of registration and start *)

Section Registration.

Context {St Data : Type}.
Variable Marshal : Data → list Byte.byte * option error.

Implicit Types (resource : Resource St Data) (api : API St) (path : string).

(** [AddResource] by cases on the path and on the routes there are. *)
Lemma AddResource_cases resource path api :
  AddResource Marshal resource path api =
  if decide (path = "") then
    Panicked "http: invalid pattern" (mkAPI (Some (routes api)))
  else if decide (is_Some (routes api !! path)) then
    Panicked ("http: multiple registrations for " +:+ path)
             (mkAPI (Some (routes api)))
  else
    Completed
      (mkAPI (Some (<[path := requestHandler Marshal resource]> (routes api)))).
Proof.
  unfold AddResource, HandleFunc, routes, NewServeMux.
  destruct (mux api) as [m|]; repeat case_decide; done.
Qed.

Lemma AddResource_Completed resource path api api' :
  AddResource Marshal resource path api = Completed api' ↔
  path ≠ "" ∧ routes api !! path = None ∧
  api' = mkAPI (Some (<[path := requestHandler Marshal resource]> (routes api))).
Proof.
  rewrite AddResource_cases, eq_None_not_Some.
  repeat case_decide; naive_solver.
Qed.

(** Whatever it comes to, a call of [AddResource] leaves a table. *)
Lemma mux_after_AddResource resource path api :
  ∃ m, mux (after (AddResource Marshal resource path api)) = Some m.
Proof.
  rewrite AddResource_cases. repeat case_decide; simpl; eauto.
Qed.

(** No operation takes the table away. *)
Lemma mux_apply_op api op m :
  mux api = Some m → ∃ m', mux (apply_op Marshal api op) = Some m'.
Proof.
  intros Hm. destruct op as [resource path|port|path request]; simpl; eauto.
  apply mux_after_AddResource.
Qed.

Lemma mux_foldl_apply_op ops api m :
  mux api = Some m → ∃ m', mux (foldl (apply_op Marshal) api ops) = Some m'.
Proof.
  revert api m. induction ops as [|op ops IH]; intros api m Hm; simpl; [eauto|].
  destruct (mux_apply_op api op m Hm) as [m' Hm']. eauto.
Qed.

Lemma mux_foldl_None ops api :
  mux (foldl (apply_op Marshal) api ops) = None ↔
  mux api = None ∧ forallb (λ op, negb (is_AddResource op)) ops = true.
Proof.
  revert api. induction ops as [|op ops IH]; intros api; simpl; [naive_solver|].
  rewrite IH, andb_true_iff.
  destruct op as [resource path|port|path request]; simpl; try naive_solver.
  destruct (mux_after_AddResource resource path api) as [m Hm].
  rewrite Hm. naive_solver.
Qed.

(** A run of completed registrations, unless empty, leaves a table with
    routes in it. *)
Lemma register_routes calls api api' :
  register Marshal calls api = Some api' →
  calls ≠ [] →
  ∃ m, mux api' = Some m ∧ m ≠ ∅.
Proof.
  revert api. induction calls as [|[resource path] rest IH]; intros api Hrun Hne;
    [done|].
  simpl in Hrun.
  destruct (AddResource Marshal resource path api) as [api1|msg api1] eqn:Hadd;
    [|done].
  destruct rest as [|call rest].
  - simpl in Hrun. injection Hrun as <-.
    apply AddResource_Completed in Hadd as (_ & _ & ->). simpl.
    eexists. split; [done|]. unfold ServeMux.
    apply (insert_non_empty (M:=gmap string)).
  - apply (IH api1); done.
Qed.

(** ** The claims about registration *)

(** C6, as amended: an API binds at most one resource to a path: once a
    resource is registered at a path, registering a second one at that
    path does not succeed: the call panics in the routing table, and the
    table goes on binding the path to the handler of the first. *)
Theorem AddResource_same_path_panics resource1 resource2 path api api1 :
  AddResource Marshal resource1 path api = Completed api1 →
  routes api1 !! path = Some (requestHandler Marshal resource1) ∧
  AddResource Marshal resource2 path api1 =
    Panicked ("http: multiple registrations for " +:+ path) api1 ∧
  routes (after (AddResource Marshal resource2 path api1)) !! path =
    Some (requestHandler Marshal resource1) ∧
  (∀ path', path' ≠ path → routes api1 !! path' = routes api !! path').
Proof.
  intros Hadd.
  apply AddResource_Completed in Hadd as (Hne & Hfree & ->).
  assert (Hbound :
    routes (mkAPI (Some (<[path := requestHandler Marshal resource1]> (routes api))))
      !! path = Some (requestHandler Marshal resource1))
    by (simpl; apply (lookup_insert_eq (M:=gmap string))).
  assert (Hpanic :
    AddResource Marshal resource2 path
      (mkAPI (Some (<[path := requestHandler Marshal resource1]> (routes api)))) =
    Panicked ("http: multiple registrations for " +:+ path)
      (mkAPI (Some (<[path := requestHandler Marshal resource1]> (routes api))))).
  { rewrite AddResource_cases, Hbound.
    repeat case_decide; try done.
    exfalso. eauto. }
  split_and!; try done.
  - rewrite Hpanic. exact Hbound.
  - intros path' Hpath'. simpl. apply (lookup_insert_ne (M:=gmap string)). done.
Qed.

(** C7, as amended: [AddResource] returns nothing, but it can fail: on
    the empty path and on a path that is registered on the API already the
    registration panics, whatever the resource, with the table allocated
    and the routes as they were; a call that completes was given a path
    that is not empty and was not registered, and has bound it to the
    handler of the resource, touching no other route. *)
Theorem AddResource_panics_on_empty_or_registered resource path api :
  (path = "" ∨ is_Some (routes api !! path) →
   ∃ msg, AddResource Marshal resource path api =
          Panicked msg (mkAPI (Some (routes api)))) ∧
  (∀ api', AddResource Marshal resource path api = Completed api' →
     path ≠ "" ∧ routes api !! path = None ∧
     api' = mkAPI (Some (<[path := requestHandler Marshal resource]> (routes api)))).
Proof.
  split.
  - intros Hbad. rewrite AddResource_cases.
    destruct (decide (path = "")) as [Hempty|Hne]; [eauto|].
    destruct (decide (is_Some (routes api !! path))) as [Hbound|Hfree]; [eauto|].
    destruct Hbad; done.
  - intros api' Hadd. apply AddResource_Completed in Hadd. done.
Qed.

End Registration.

Section Start.

Context {St Data : Type}.
Variable Marshal : Data → list Byte.byte * option error.
Variable ListenAndServe : string → ServeMux St → Serving.

Implicit Types (resource : Resource St Data) (api : API St) (path : string).

Lemma Start_nil api port :
  mux api = None →
  Start ListenAndServe api port =
  (Fails "You must add at least one resource to this API.", []).
Proof. intros Hm. unfold Start. rewrite Hm. reflexivity. Qed.

Lemma Start_table api port m :
  mux api = Some m →
  Start ListenAndServe api port =
  (ListenAndServe (":" +:+ pretty port) m, [(":" +:+ pretty port, m)]).
Proof. intros Hm. unfold Start. rewrite Hm. reflexivity. Qed.

(** X12: over every history of operations on a new API, a recovered panic of
    [AddResource] among them, [Start] takes its configuration-error branch
    exactly when [AddResource] was never called. After a first call that
    panicked the table is there, with no route in it, and [Start] goes to
    the transport. *)
Lemma Start_config_error_history ops port :
  Start ListenAndServe (foldl (apply_op Marshal) NewAPI ops) port =
    (Fails "You must add at least one resource to this API.", [])
  ↔ forallb (λ op, negb (is_AddResource op)) ops = true.
Proof.
  destruct (mux (foldl (apply_op Marshal) NewAPI ops)) as [m|] eqn:Hm.
  - rewrite (Start_table _ port m Hm).
    split; [done|]. intros Hall.
    assert (mux (foldl (apply_op Marshal) NewAPI ops) = None)
      by (apply (mux_foldl_None Marshal); done).
    congruence.
  - rewrite (Start_nil _ port Hm).
    apply (mux_foldl_None Marshal) in Hm as [_ Hall]. done.
Qed.

(** ** The claims about start *)

(** On an API reached from [NewAPI] by completed [AddResource] calls,
    [Start] returns the configuration error, with no call to the transport,
    if and only if no resource was registered; with a resource registered
    it makes one call to [http.ListenAndServe], on the port and the table. *)
Lemma Start_config_error_iff calls api port :
  register Marshal calls NewAPI = Some api →
  (Start ListenAndServe api port =
     (Fails "You must add at least one resource to this API.", [])
   ↔ calls = []) ∧
  (calls = [] ↔ routes api = ∅) ∧
  (calls ≠ [] →
   ∃ m, mux api = Some m ∧
        Start ListenAndServe api port =
        (ListenAndServe (":" +:+ pretty port) m, [(":" +:+ pretty port, m)])).
Proof.
  intros Hrun.
  destruct calls as [|call rest].
  - simpl in Hrun. injection Hrun as <-.
    split_and!; try done.
  - destruct (register_routes Marshal _ _ _ Hrun) as (m & Hm & Hne); [done|].
    rewrite (Start_table api port m Hm).
    unfold routes. rewrite Hm.
    split_and!; try done; eauto.
Qed.


(** C10: after one call of [AddResource] on an API its table is not nil,
    and it stays so under every later operation, so that [Start] never
    takes its configuration-error branch there: it calls the transport. *)
Theorem mux_stays_non_nil api resource path ops port :
  let api' :=
    foldl (apply_op Marshal) (after (AddResource Marshal resource path api)) ops in
  mux api' ≠ None ∧
  ∃ m, mux api' = Some m ∧
       Start ListenAndServe api' port =
       (ListenAndServe (":" +:+ pretty port) m, [(":" +:+ pretty port, m)]) ∧
       snd (Start ListenAndServe api' port) ≠ [].
Proof.
  intros api'. subst api'.
  destruct (mux_after_AddResource Marshal resource path api) as [m0 Hm0].
  destruct (mux_foldl_apply_op Marshal ops _ _ Hm0) as [m Hm].
  rewrite (Start_table _ port m Hm), Hm.
  split; [done|]. exists m. done.
Qed.

End Start.

(** * The sample server, run *)



Lemma parse_failure_bad_request_witness :
  snd (ParseForm badRequest) = Some "invalid URL escape %zz" ∧
  let w' := snd (requestHandler sampleMarshal counter badRequest world0) in
  rw w' = rw world0 ++ [CallWriteHeader 400] ∧
  invoked w' = invoked world0 ∧
  state w' = state world0 ∧
  body (rw w') = body (rw world0) ∧
  (rw world0 = [] → status (rw w') = 400 ∧ body (rw w') = []).
Proof.
  split; [reflexivity|].
  apply (parse_failure_bad_request sampleMarshal counter badRequest world0
           "invalid URL escape %zz"); reflexivity.
Defined.

(** C3 as stated fails: a PATCH whose form does not parse gets 400. *)
Lemma unsupported_method_bad_form_counterexample :
  (Method badRequest ∉ [GET; POST; PUT; DELETE]) ∧
  rw (snd (requestHandler sampleMarshal inert badRequest world0)) =
    [CallWriteHeader 400] ∧
  status (rw (snd (requestHandler sampleMarshal inert badRequest world0))) ≠ 405.
Proof.
  split_and!.
  - apply verb_None. reflexivity.
  - reflexivity.
  - discriminate.
Qed.

Lemma unsupported_method_not_allowed_witness :
  snd (ParseForm postRequest) = None ∧
  verb (Method postRequest) = Some CapPost ∧
  method_of fixed CapPost = None ∧
  let w' := snd (requestHandler sampleMarshal fixed postRequest world0) in
  rw w' = rw world0 ++ [CallWriteHeader 405] ∧
  invoked w' = invoked world0 ∧
  state w' = state world0 ∧
  body (rw w') = body (rw world0) ∧
  (rw world0 = [] → status (rw w') = 405 ∧ body (rw w') = []).
Proof.
  split_and!; try reflexivity.
  apply (unsupported_method_not_allowed sampleMarshal fixed postRequest world0);
    [reflexivity|].
  right. exists CapPost. split; reflexivity.
Defined.

Lemma serialization_failure_writes_witness :
  sampleMarshal (VSlice [VInt 1; VChan]) =
    ([], Some "json: unsupported type: chan int") ∧
  let w' := snd (requestHandler sampleMarshal broken getRequest world0) in
  rw w' = rw world0 ++
          [CallWriteHeader 500; CallWriteHeader 200; CallWrite []] ∧
  invoked w' = invoked world0 ++ [(CapGet, Form getRequest)] ∧
  state w' = 7%nat.
Proof.
  split; [reflexivity|].
  apply (serialization_failure_writes sampleMarshal broken getRequest world0
           CapGet (fun _ n => ((200, VSlice [VInt 1; VChan]), n))
           200 (VSlice [VInt 1; VChan]) 7%nat []
           "json: unsupported type: chan int"); reflexivity.
Defined.

Lemma requestHandler_deterministic_witness :
  let w0' := snd (requestHandler sampleMarshal fixed getRequest world0) in
  let w1' := snd (requestHandler sampleMarshal fixed getRequest world1) in
  rw w0' = rw w1' ∧
  status (rw w0') = status (rw w1') ∧
  body (rw w0') = body (rw w1') ∧
  state w0' = state world0 ∧ state w1' = state world1.
Proof.
  apply (requestHandler_deterministic sampleMarshal fixed getRequest getRequest
           world0 world1); try reflexivity.
  intros c handler [= <- <-].
  exists (fun _ => (200, VSlice [VInt 1; VInt 2; VNil])). reflexivity.
Defined.

Lemma parse_failure_precedes_dispatch_witness :
  select inert (Method badRequest) = None ∧
  let w' := snd (requestHandler sampleMarshal inert badRequest world0) in
  rw w' = rw world0 ++ [CallWriteHeader 400] ∧
  (CallWriteHeader 405 ∉ drop (length (rw world0)) (rw w')) ∧
  (rw world0 = [] → status (rw w') = 400) ∧
  requestHandler sampleMarshal counter (mkRequest "GET" (∅, Some "EOF")) world0 =
  requestHandler sampleMarshal inert badRequest world0.
Proof.
  split; [reflexivity|].
  apply (parse_failure_precedes_dispatch sampleMarshal inert counter badRequest
           (mkRequest "GET" (∅, Some "EOF")) world0
           "invalid URL escape %zz" "EOF"); reflexivity.
Defined.

Lemma Start_config_error_iff_witness :
  register sampleMarshal [(counter, "/items"); (fixed, "/fixed")] NewAPI =
    Some (mkAPI (Some (<["/fixed" := requestHandler sampleMarshal fixed]>
                         {[ "/items" := requestHandler sampleMarshal counter ]}))) ∧
  Start sampleListenAndServe (NewAPI (St:=nat)) 8080 =
    (Fails "You must add at least one resource to this API.", []) ∧
  ∃ m, mux (mkAPI (Some (<["/fixed" := requestHandler sampleMarshal fixed]>
                           {[ "/items" := requestHandler sampleMarshal counter ]}))) = Some m ∧
       Start sampleListenAndServe
         (mkAPI (Some (<["/fixed" := requestHandler sampleMarshal fixed]>
                         {[ "/items" := requestHandler sampleMarshal counter ]}))) 8080 =
       (Fails "listen tcp :8080: bind: address already in use", [(":8080", m)]).
Proof.
  split; [vm_compute; reflexivity|].
  split.
  - apply (Start_config_error_iff sampleMarshal sampleListenAndServe
             [] NewAPI 8080); reflexivity.
  - apply (Start_config_error_iff sampleMarshal sampleListenAndServe
             [(counter, "/items"); (fixed, "/fixed")] _ 8080);
      [vm_compute; reflexivity|discriminate].
Defined.



(** C6 as stated fails: the second registration at [/items] panics. *)
Lemma second_registration_counterexample :
  AddResource sampleMarshal counter "/items" NewAPI = Completed itemsAPI ∧
  AddResource sampleMarshal fixed "/items" itemsAPI =
    Panicked "http: multiple registrations for /items" itemsAPI ∧
  register sampleMarshal [(counter, "/items"); (fixed, "/items")] NewAPI = None.
Proof. split_and!; vm_compute; reflexivity. Qed.

Lemma AddResource_same_path_panics_witness :
  AddResource sampleMarshal counter "/items" NewAPI = Completed itemsAPI ∧
  routes itemsAPI !! "/items" = Some (requestHandler sampleMarshal counter) ∧
  AddResource sampleMarshal fixed "/items" itemsAPI =
    Panicked ("http: multiple registrations for " +:+ "/items") itemsAPI ∧
  routes (after (AddResource sampleMarshal fixed "/items" itemsAPI)) !! "/items" =
    Some (requestHandler sampleMarshal counter) ∧
  (∀ path', path' ≠ "/items" →
            routes itemsAPI !! path' = routes (NewAPI (St:=nat)) !! path').
Proof.
  split; [vm_compute; reflexivity|].
  apply (AddResource_same_path_panics sampleMarshal counter fixed "/items"
           NewAPI itemsAPI).
  vm_compute; reflexivity.
Defined.

(** C7 as stated fails: on the empty path [AddResource] panics, and so it
    does on a path that is registered. *)
Lemma AddResource_empty_path_counterexample :
  AddResource sampleMarshal counter "" NewAPI =
    Panicked "http: invalid pattern" (mkAPI (Some ∅)) ∧
  ¬ (∃ api', AddResource sampleMarshal counter "" NewAPI = Completed api') ∧
  ¬ (∃ api', AddResource sampleMarshal fixed "/items" itemsAPI = Completed api').
Proof.
  split_and!.
  - reflexivity.
  - intros [api' Hadd]. discriminate Hadd.
  - intros [api' Hadd]. vm_compute in Hadd. discriminate Hadd.
Qed.

Lemma AddResource_panics_on_empty_or_registered_witness :
  is_Some (routes itemsAPI !! "/items") ∧
  ∃ msg, AddResource sampleMarshal fixed "/items" itemsAPI =
         Panicked msg (mkAPI (Some (routes itemsAPI))).
Proof.
  split; [vm_compute; eauto|].
  apply (AddResource_panics_on_empty_or_registered sampleMarshal fixed "/items"
           itemsAPI).
  right. vm_compute. eauto.
Defined.

Lemma mux_stays_non_nil_witness :
  let api' :=
    foldl (apply_op sampleMarshal)
      (after (AddResource sampleMarshal counter "" NewAPI))
      [OpStart 80; OpAddResource fixed "/fixed"; OpServe "/fixed" getRequest] in
  mux api' ≠ None ∧
  ∃ m, mux api' = Some m ∧
       Start sampleListenAndServe api' 8080 =
       (sampleListenAndServe (":" +:+ pretty 8080) m, [(":" +:+ pretty 8080, m)]) ∧
       snd (Start sampleListenAndServe api' 8080) ≠ [].
Proof.
  apply (mux_stays_non_nil sampleMarshal sampleListenAndServe NewAPI counter ""
           [OpStart 80; OpAddResource fixed "/fixed"; OpServe "/fixed" getRequest]
           8080).
Defined.

(** * Further properties of the request handler *)

Section RequestHandlerShape.

Context {St Data : Type}.
Variable Marshal : Data → list Byte.byte * option error.

Implicit Types (resource : Resource St Data) (request : Request).
Implicit Types (w : World St) (c : Capability) (handler : MethodFunc St Data).

(** The three ways through [requestHandler], with what each leaves. *)
Lemma requestHandler_paths resource request w :
  let w' := snd (requestHandler Marshal resource request w) in
  (∃ err, snd (ParseForm request) = Some err ∧
     w' = mkWorld (state w) (invoked w) (rw w ++ [CallWriteHeader 400])) ∨
  (snd (ParseForm request) = None ∧ select resource (Method request) = None ∧
     w' = mkWorld (state w) (invoked w) (rw w ++ [CallWriteHeader 405])) ∨
  (∃ c handler code data s',
     snd (ParseForm request) = None ∧
     select resource (Method request) = Some (c, handler) ∧
     handler (Form request) (state w) = ((code, data), s') ∧
     w' = mkWorld s' (invoked w ++ [(c, Form request)])
            (rw w ++
             (match snd (Marshal data) with
              | Some _ => [CallWriteHeader 500]
              | None => []
              end) ++ [CallWriteHeader code; CallWrite (fst (Marshal data))])).
Proof.
  intros w'. subst w'.
  destruct (snd (ParseForm request)) as [err|] eqn:Hparse.
  - left. exists err. split; [done|].
    rewrite (requestHandler_parse_error Marshal _ _ _ _ Hparse). done.
  - right.
    destruct (select resource (Method request)) as [[c handler]|] eqn:Hsel.
    + right.
      destruct (handler (Form request) (state w)) as [[code data] s'] eqn:Hcall.
      exists c, handler, code, data, s'. split_and!; try done.
      rewrite (requestHandler_method Marshal _ _ _ _ _ _ _ _ Hparse Hsel Hcall).
      done.
    + left. split_and!; try done.
      rewrite (requestHandler_no_method Marshal _ _ _ Hparse Hsel). done.
Qed.

(** X1: a request makes the handler invoke at most one method, and only the
    one of the capability the request's verb stands for, on the parsed
    form; when it invokes none, the state behind the resources is as it
    was. *)
Theorem requestHandler_invokes_at_most_one resource request w :
  let w' := snd (requestHandler Marshal resource request w) in
  (invoked w' = invoked w ∧ state w' = state w) ∨
  (∃ c handler,
     snd (ParseForm request) = None ∧
     verb (Method request) = Some c ∧
     method_of resource c = Some handler ∧
     invoked w' = invoked w ++ [(c, Form request)] ∧
     state w' = snd (handler (Form request) (state w))).
Proof.
  intros w'.
  destruct (requestHandler_paths resource request w)
    as [(err & _ & Hw)|[(_ & _ & Hw)|(c & handler & code & data & s' & Hp & Hsel & Hcall & Hw)]];
    fold w' in Hw; rewrite Hw; simpl.
  - left. done.
  - left. done.
  - right. exists c, handler. apply select_Some in Hsel as [Hverb Hmeth].
    rewrite Hcall. done.
Qed.


(** X3: when the data a method returned does not serialize, the response on a
    fresh writer has status 500 whatever status the method returned, since
    the first [WriteHeader] is the one that counts, and its body is the
    content [json.Marshal] returned with the error; the method did run, and
    the state is the one it left. *)
Theorem serialization_failure_status
    resource request w c handler code data s' content err :
  snd (ParseForm request) = None →
  verb (Method request) = Some c →
  method_of resource c = Some handler →
  handler (Form request) (state w) = ((code, data), s') →
  Marshal data = (content, Some err) →
  rw w = [] →
  let w' := snd (requestHandler Marshal resource request w) in
  status (rw w') = 500 ∧ body (rw w') = content ∧ state w' = s'.
Proof.
  intros Hparse Hverb Hmeth Hcall Hjson Hrw w'. subst w'.
  assert (Hsel : select resource (Method request) = Some (c, handler))
    by (apply select_Some; auto).
  rewrite (requestHandler_method Marshal _ _ _ _ _ _ _ _ Hparse Hsel Hcall).
  rewrite Hjson, Hrw. simpl. rewrite app_nil_r. done.
Qed.


(** X5: the answer to a request depends on the resource only through the
    method it has for the verb of the request: two resources that agree on
    that one are handled alike, whatever else they implement. *)
Theorem requestHandler_only_verb_method resource1 resource2 request w :
  (∀ c, verb (Method request) = Some c →
        method_of resource1 c = method_of resource2 c) →
  requestHandler Marshal resource1 request w =
  requestHandler Marshal resource2 request w.
Proof.
  intros Hagree.
  assert (Hsel : select resource1 (Method request) =
                 select resource2 (Method request)).
  { rewrite !select_verb.
    destruct (verb (Method request)) as [c|]; [|done].
    rewrite (Hagree c eq_refl). done. }
  unfold requestHandler. rewrite Hsel. done.
Qed.

End RequestHandlerShape.

(** * Further properties of registration *)

Section RegistrationRuns.

Context {St Data : Type}.
Variable Marshal : Data → list Byte.byte * option error.

Implicit Types (resource : Resource St Data) (api : API St) (path : string).
Implicit Types (calls : list (Resource St Data * string)).

Lemma routes_Completed resource path api api' :
  AddResource Marshal resource path api = Completed api' →
  path ≠ "" ∧ routes api !! path = None ∧
  mux api' = Some (routes api') ∧
  routes api' = <[path := requestHandler Marshal resource]> (routes api).
Proof.
  intros Hadd. apply AddResource_Completed in Hadd as (Hne & Hfree & ->). done.
Qed.

Lemma lookup_routes_Completed resource path api api' p :
  AddResource Marshal resource path api = Completed api' →
  routes api' !! p =
  if decide (path = p) then Some (requestHandler Marshal resource)
  else routes api !! p.
Proof.
  intros Hadd. apply routes_Completed in Hadd as (_ & _ & _ & ->).
  apply (lookup_insert (M:=gmap string)).
Qed.

(** X6: [AddResource] never takes a route away and never rebinds one; a call
    that panics leaves the routes as they were. *)
Theorem AddResource_keeps_routes resource path api :
  (∀ p h, routes api !! p = Some h →
          routes (after (AddResource Marshal resource path api)) !! p = Some h) ∧
  (∀ msg api', AddResource Marshal resource path api = Panicked msg api' →
               routes api' = routes api).
Proof.
  rewrite AddResource_cases.
  destruct (decide (path = "")) as [Hempty|Hne]; simpl.
  { split; [done|]. intros msg api' [= _ <-]. done. }
  destruct (decide (is_Some (routes api !! path))) as [Hbound|Hfree]; simpl.
  { split; [done|]. intros msg api' [= _ <-]. done. }
  split; [|done].
  intros p h Hp. change (routes (mkAPI (Some ?m))) with m.
  destruct (decide (path = p)) as [->|Hpath]; [exfalso; eauto|].
  rewrite <- Hp. apply (lookup_insert_ne (M:=gmap string)). done.
Qed.

(** When a run of registrations completes, from whatever API. *)
Lemma register_is_Some calls api :
  is_Some (register Marshal calls api) ↔
  NoDup calls.*2 ∧ ("" ∉ calls.*2) ∧ ∀ p, p ∈ calls.*2 → routes api !! p = None.
Proof.
  revert api. induction calls as [|[resource path] rest IH]; intros api; simpl.
  - split; [|eauto]. intros _. split_and!; [constructor|apply not_elem_of_nil|].
    intros p Hp. by apply elem_of_nil in Hp.
  - rewrite NoDup_cons, not_elem_of_cons.
    destruct (AddResource Marshal resource path api) as [api1|msg api1] eqn:Hadd.
    + rewrite IH.
      pose proof (routes_Completed _ _ _ _ Hadd) as (Hne & Hfree & _ & _).
      split.
      * intros (Hnd & Hempty & Hall). split_and!; try done.
        -- intros Hin. specialize (Hall _ Hin).
           rewrite (lookup_routes_Completed _ _ _ _ path Hadd) in Hall.
           case_decide; done.
        -- intros p [->|Hin]%elem_of_cons; [done|].
           specialize (Hall _ Hin).
           rewrite (lookup_routes_Completed _ _ _ _ p Hadd) in Hall.
           case_decide; done.
      * intros ((Hnotin & Hnd) & (_ & Hempty) & Hall). split_and!; try done.
        intros p Hin.
        rewrite (lookup_routes_Completed _ _ _ _ p Hadd).
        case_decide; [subst; done|].
        apply Hall, elem_of_cons. auto.
    + split; [intros [? [=]]|].
      intros (_ & (Hne & _) & Hall). exfalso.
      assert (Hfree : routes api !! path = None)
        by (apply Hall, elem_of_cons; auto).
      assert (Hok : ∃ api', AddResource Marshal resource path api = Completed api')
        by (eexists; apply AddResource_Completed; split_and!; [congruence|done|done]).
      destruct Hok as [api' Hok]. congruence.
Qed.

(** The routes a completed run leaves, path by path. *)
Lemma register_lookup calls api api' :
  register Marshal calls api = Some api' →
  (∀ resource p, (resource, p) ∈ calls →
                 routes api' !! p = Some (requestHandler Marshal resource)) ∧
  (∀ p, p ∉ calls.*2 → routes api' !! p = routes api !! p) ∧
  (∀ p h, routes api !! p = Some h → routes api' !! p = Some h).
Proof.
  revert api. induction calls as [|[resource0 path0] rest IH]; intros api Hrun;
    simpl in Hrun.
  - injection Hrun as <-. split_and!; try done.
    intros resource p Hin. by apply elem_of_nil in Hin.
  - destruct (AddResource Marshal resource0 path0 api) as [api1|msg api1] eqn:Hadd;
      [|done].
    destruct (IH api1 Hrun) as (IHa & IHb & IHc).
    pose proof (routes_Completed _ _ _ _ Hadd) as (Hne & Hfree & _ & _).
    split_and!.
    + intros resource p [[= -> ->]|Hin]%elem_of_cons; [|by eapply IHa].
      apply IHc. rewrite (lookup_routes_Completed _ _ _ _ path0 Hadd).
      case_decide; done.
    + intros p Hnotin. simpl in Hnotin.
      apply not_elem_of_cons in Hnotin as [Hp Hnotin].
      rewrite (IHb p Hnotin), (lookup_routes_Completed _ _ _ _ p Hadd).
      case_decide; [congruence|done].
    + intros p h Hp. apply IHc.
      rewrite (lookup_routes_Completed _ _ _ _ p Hadd).
      case_decide; [congruence|done].
Qed.

Lemma register_mux calls api api' :
  register Marshal calls api = Some api' →
  calls ≠ [] →
  mux api' = Some (routes api').
Proof.
  intros Hrun Hne.
  destruct (register_routes Marshal _ _ _ Hrun Hne) as (m & Hm & _).
  unfold routes. rewrite Hm. done.
Qed.

(** X7: on a new API a run of [AddResource] calls that completes has
    paths that are pairwise distinct and none of them empty: a run with a
    repeated or an empty path panics. *)
Theorem register_completed_paths calls api :
  register Marshal calls NewAPI = Some api →
  NoDup calls.*2 ∧ ("" ∉ calls.*2).
Proof.
  intros Hrun.
  assert (Hsome : is_Some (register Marshal calls NewAPI)) by eauto.
  apply register_is_Some in Hsome as (Hnd & Hempty & _). done.
Qed.

(** X8: after a completed run on a new API the routes are the paths of the
    run, no more and no less, each bound to the handler of the resource
    that was registered at it. *)
Theorem register_routes_exact calls api :
  register Marshal calls NewAPI = Some api →
  (∀ resource p, (resource, p) ∈ calls →
                 routes api !! p = Some (requestHandler Marshal resource)) ∧
  (∀ p, is_Some (routes api !! p) ↔ p ∈ calls.*2).
Proof.
  intros Hrun.
  destruct (register_lookup _ _ _ Hrun) as (Ha & Hb & _).
  split; [done|]. intros p. split.
  - intros Hsome. destruct (decide (p ∈ calls.*2)) as [|Hnotin]; [done|].
    rewrite (Hb p Hnotin) in Hsome. by destruct Hsome.
  - intros ([resource p'] & -> & Hin)%list_elem_of_fmap. simpl.
    rewrite (Ha _ _ Hin). eauto.
Qed.

(** X9: the order of registration does not matter: two runs of the same calls
    in different orders both complete or both panic, and when they complete
    they leave the same API. *)
Theorem register_order_irrelevant calls calls' api :
  calls ≡ₚ calls' →
  register Marshal calls api = register Marshal calls' api.
Proof.
  intros Hperm.
  assert (Hperm2 : calls.*2 ≡ₚ calls'.*2) by (by apply fmap_Permutation).
  assert (Hsame : is_Some (register Marshal calls api) ↔
                  is_Some (register Marshal calls' api)).
  { rewrite !register_is_Some.
    split; intros (Hnd & Hempty & Hall); split_and!.
    - by rewrite <- Hperm2.
    - by rewrite <- Hperm2.
    - intros p Hp. apply Hall. by rewrite Hperm2.
    - by rewrite Hperm2.
    - by rewrite Hperm2.
    - intros p Hp. apply Hall. by rewrite <- Hperm2. }
  destruct (register Marshal calls api) as [api1|] eqn:Hrun1;
    destruct (register Marshal calls' api) as [api2|] eqn:Hrun2.
  - destruct calls as [|call rest].
    { apply Permutation_nil_l in Hperm as <-. simpl in *. congruence. }
    assert (Hne' : calls' ≠ []).
    { intros ->. by apply Permutation_nil_r in Hperm. }
    pose proof (register_mux _ _ _ Hrun1 ltac:(done)) as Hm1.
    pose proof (register_mux _ _ _ Hrun2 Hne') as Hm2.
    destruct (register_lookup _ _ _ Hrun1) as (Ha1 & Hb1 & _).
    destruct (register_lookup _ _ _ Hrun2) as (Ha2 & Hb2 & _).
    assert (Hroutes : routes api1 = routes api2).
    { apply (map_eq (M:=gmap string)). intros p.
      destruct (decide (p ∈ (call :: rest).*2)) as [Hin|Hnotin].
      - apply list_elem_of_fmap in Hin as ([resource p'] & -> & Hin). simpl.
        etrans; [apply (Ha1 _ _ Hin)|].
        symmetry. apply Ha2. by rewrite <- Hperm.
      - etrans; [apply (Hb1 p Hnotin)|].
        symmetry. apply Hb2. by rewrite <- Hperm2. }
    destruct api1 as [m1], api2 as [m2]. simpl in *. congruence.
  - exfalso. destruct Hsame as [Hs _]. destruct Hs as [? [=]]. eauto.
  - exfalso. destruct Hsame as [_ Hs]. destruct Hs as [? [=]]. eauto.
  - done.
Qed.

End RegistrationRuns.

(** * Further properties of start *)

Section StartRuns.

Context {St Data : Type}.
Variable Marshal : Data → list Byte.byte * option error.
Variable ListenAndServe : string → ServeMux St → Serving.

Implicit Types (resource : Resource St Data) (api : API St) (path : string).
Implicit Types (calls : list (Resource St Data * string)).

(** X10: after a completed run of registrations on a new API, [Start] gives the
    transport one table that holds the paths of the run and no other, each
    bound to the handler of the resource registered at it. *)
Theorem Start_serves_registered calls api port :
  register Marshal calls NewAPI = Some api →
  calls ≠ [] →
  ∃ m,
    Start ListenAndServe api port =
      (ListenAndServe (":" +:+ pretty port) m, [(":" +:+ pretty port, m)]) ∧
    (∀ resource p, (resource, p) ∈ calls →
                   m !! p = Some (requestHandler Marshal resource)) ∧
    (∀ p, is_Some (m !! p) ↔ p ∈ calls.*2).
Proof.
  intros Hrun Hne.
  pose proof (register_mux Marshal _ _ _ Hrun Hne) as Hm.
  destruct (register_lookup Marshal _ _ _ Hrun) as (Ha & Hb & _).
  exists (routes api). split_and!.
  - apply Start_table. done.
  - done.
  - intros p. split.
    + intros Hsome. destruct (decide (p ∈ calls.*2)) as [|Hnotin]; [done|].
      rewrite (Hb p Hnotin) in Hsome. by destruct Hsome.
    + intros ([resource p'] & -> & Hin)%list_elem_of_fmap. simpl.
      rewrite (Ha _ _ Hin). eauto.
Qed.

(** X11: APIs with routes, started on different ports, call the transport with
    different addresses: the address is the port in decimal after a
    colon, and [Start] passes every integer on as it is, checking no
    range. *)
Theorem Start_address_injective api1 api2 port1 port2 :
  mux api1 ≠ None →
  mux api2 ≠ None →
  port1 ≠ port2 →
  (snd (Start ListenAndServe api1 port1)).*1 = [":" +:+ pretty port1] ∧
  (snd (Start ListenAndServe api2 port2)).*1 = [":" +:+ pretty port2] ∧
  (snd (Start ListenAndServe api1 port1)).*1 ≠
  (snd (Start ListenAndServe api2 port2)).*1.
Proof.
  intros Hm1 Hm2 Hports.
  destruct (mux api1) as [m1|] eqn:E1; [|done].
  destruct (mux api2) as [m2|] eqn:E2; [|done].
  rewrite (Start_table ListenAndServe api1 port1 m1 E1).
  rewrite (Start_table ListenAndServe api2 port2 m2 E2).
  simpl. split_and!; try done.
  intros [= Heq]. apply Hports. by apply (inj pretty).
Qed.

End StartRuns.

(** * The sample server, run further *)


Lemma serialization_failure_status_witness :
  sampleMarshal (VSlice [VInt 1; VChan]) =
    ([], Some "json: unsupported type: chan int") ∧
  let w' := snd (requestHandler sampleMarshal broken getRequest world0) in
  status (rw w') = 500 ∧ body (rw w') = [] ∧ state w' = 7%nat.
Proof.
  split; [reflexivity|].
  apply (serialization_failure_status sampleMarshal broken getRequest world0
           CapGet (fun _ n => ((200, VSlice [VInt 1; VChan]), n))
           200 (VSlice [VInt 1; VChan]) 7%nat []
           "json: unsupported type: chan int"); reflexivity.
Defined.


Lemma requestHandler_only_verb_method_witness :
  requestHandler sampleMarshal fixed getRequest world1 =
  requestHandler sampleMarshal
    (mkResource (Get fixed) (Post counter) None None) getRequest world1.
Proof.
  apply (requestHandler_only_verb_method sampleMarshal fixed
           (mkResource (Get fixed) (Post counter) None None) getRequest world1).
  intros c [= <-]. reflexivity.
Defined.

Lemma register_routes_exact_witness :
  register sampleMarshal [(counter, "/items"); (fixed, "/fixed")] NewAPI =
    Some (mkAPI (Some (<["/fixed" := requestHandler sampleMarshal fixed]>
                         {[ "/items" := requestHandler sampleMarshal counter ]}))) ∧
  (∀ resource p, (resource, p) ∈ [(counter, "/items"); (fixed, "/fixed")] →
     routes (mkAPI (Some (<["/fixed" := requestHandler sampleMarshal fixed]>
                            {[ "/items" := requestHandler sampleMarshal counter ]})))
       !! p = Some (requestHandler sampleMarshal resource)) ∧
  (∀ p, is_Some
          (routes (mkAPI (Some (<["/fixed" := requestHandler sampleMarshal fixed]>
                                  {[ "/items" := requestHandler sampleMarshal counter ]})))
             !! p)
        ↔ p ∈ [(counter, "/items"); (fixed, "/fixed")].*2).
Proof.
  split; [vm_compute; reflexivity|].
  apply (register_routes_exact sampleMarshal
           [(counter, "/items"); (fixed, "/fixed")]).
  vm_compute; reflexivity.
Defined.

Lemma register_order_irrelevant_witness :
  [(counter, "/items"); (fixed, "/fixed")] ≡ₚ
    [(fixed, "/fixed"); (counter, "/items")] ∧
  register sampleMarshal [(counter, "/items"); (fixed, "/fixed")] NewAPI =
  register sampleMarshal [(fixed, "/fixed"); (counter, "/items")] NewAPI.
Proof.
  split; [apply perm_swap|].
  apply (register_order_irrelevant sampleMarshal
           [(counter, "/items"); (fixed, "/fixed")]
           [(fixed, "/fixed"); (counter, "/items")] NewAPI).
  apply perm_swap.
Defined.

Lemma Start_serves_registered_witness :
  ∃ m,
    Start sampleListenAndServe
      (mkAPI (Some (<["/fixed" := requestHandler sampleMarshal fixed]>
                      {[ "/items" := requestHandler sampleMarshal counter ]}))) 8080 =
      (sampleListenAndServe (":" +:+ pretty 8080) m, [(":" +:+ pretty 8080, m)]) ∧
    (∀ resource p, (resource, p) ∈ [(counter, "/items"); (fixed, "/fixed")] →
                   m !! p = Some (requestHandler sampleMarshal resource)) ∧
    (∀ p, is_Some (m !! p) ↔ p ∈ [(counter, "/items"); (fixed, "/fixed")].*2).
Proof.
  apply (Start_serves_registered sampleMarshal sampleListenAndServe
           [(counter, "/items"); (fixed, "/fixed")]);
    [vm_compute; reflexivity|discriminate].
Defined.

Lemma Start_address_injective_witness :
  (snd (Start sampleListenAndServe itemsAPI 8080)).*1 = [":" +:+ pretty 8080] ∧
  (snd (Start sampleListenAndServe itemsAPI (-1))).*1 = [":" +:+ pretty (-1)] ∧
  (snd (Start sampleListenAndServe itemsAPI 8080)).*1 ≠
  (snd (Start sampleListenAndServe itemsAPI (-1))).*1.
Proof.
  apply (Start_address_injective sampleListenAndServe itemsAPI itemsAPI 8080 (-1));
    discriminate.
Defined.

Lemma register_completed_paths_witness :
  register sampleMarshal [(counter, "/items"); (fixed, "/fixed")] NewAPI =
    Some (mkAPI (Some (<["/fixed" := requestHandler sampleMarshal fixed]>
                         {[ "/items" := requestHandler sampleMarshal counter ]}))) ∧
  NoDup [(counter, "/items"); (fixed, "/fixed")].*2 ∧
  ("" ∉ [(counter, "/items"); (fixed, "/fixed")].*2).
Proof.
  split; [vm_compute; reflexivity|].
  apply (register_completed_paths sampleMarshal
           [(counter, "/items"); (fixed, "/fixed")]
           (mkAPI (Some (<["/fixed" := requestHandler sampleMarshal fixed]>
                           {[ "/items" := requestHandler sampleMarshal counter ]})))).
  vm_compute; reflexivity.
Defined.
